(** * Daily photo selection: [daily-photo/photo-selection.js]

    A shallow embedding of the selection core of the script
    ([seededShuffle], [getCycleSeed], [getDayInCycle], [selectByDate]) and
    the properties its specification states about it, followed by the
    part of the script that acts on the page ([insertImageIntoDocument]
    and the callback run on the fetched list).  The network request of
    [fetchPhotoList] is not modelled: the list it resolves to is an array
    of the store.

    Modelling conventions.
    - JavaScript numbers that the code keeps integral are integers of [Z]:
      a date's time value (valid dates only, at most 8.64e15 in absolute
      value), day counts, array lengths, seeds and the generator state.  On
      that range every product, quotient-and-floor and remainder below is
      exact in double precision.  [Math.floor (a / b)] with [b > 0] is
      [Z.div]; the remainder operator [%] takes the sign of the dividend
      and is [Z.rem].
    - The fraction returned by [seededRandom] is a rational of [Q], and the
      index draw [Math.floor (seededRandom () * (i + 1))] is taken in exact
      rational arithmetic; the rounding of the double quotient and product
      is not modelled (the two agree while [i + 1 <= 44]).
    - Arrays are objects in a store.  An array has its indexed elements and,
      next to them, the properties created by a write under a negative
      key; reading an absent property gives [Undefined]. *)

From Stdlib Require Import ZArith QArith Qround Lia.
From stdpp Require Import base option list gmap strings.

(** ** Values, arrays and the store *)

Inductive value (Item : Type) : Type :=
| Undefined
| Null
| Obj (x : Item).

Arguments Undefined {Item}.
Arguments Null {Item}.
Arguments Obj {Item} x.

Record JSArray (Item : Type) : Type := MkArray {
  elems : list (value Item);
  props : gmap Z (value Item)
}.

Arguments MkArray {Item} elems props.
Arguments elems {Item} _.
Arguments props {Item} _.

Definition loc : Type := positive.

Record Date : Type := MkDate { getTime : Z }.

Section Selection.
Context {Item : Type}.

Abbreviation heap := (gmap loc (JSArray Item)).

(** [a[k]]: an index inside the array reads the element, an index past the
    end reads nothing, a negative key reads the property of that name. *)
Definition array_get (a : JSArray Item) (k : Z) : value Item :=
  if decide (0 ≤ k)%Z
  then default Undefined (elems a !! Z.to_nat k)
  else default Undefined (props a !! k).

(** [a[k] = v]: an index inside the array overwrites the element, an index
    past the end extends the array (the skipped slots read [Undefined]), a
    negative key creates or overwrites a property and leaves the elements
    alone. *)
Definition array_set (a : JSArray Item) (k : Z) (v : value Item) : JSArray Item :=
  if decide (0 ≤ k)%Z then
    if decide (Z.to_nat k < length (elems a)) then
      MkArray (<[Z.to_nat k := v]> (elems a)) (props a)
    else
      MkArray (elems a ++ replicate (Z.to_nat k - length (elems a)) Undefined ++ [v])
              (props a)
  else MkArray (elems a) (<[k := v]> (props a)).

(** [[...array]]: the spread copies the indexed elements only. *)
Definition spread (a : JSArray Item) : JSArray Item := MkArray (elems a) ∅.

(** ** seededShuffle *)

(** The closure [seededRandom]: it updates the captured variable [random]
    and returns the fraction; here it returns the fraction and the new
    value of [random]. *)
Definition seededRandom (random : Z) : Q * Z :=
  let random := Z.rem (random * 9301 + 49297) 233280 in
  (random # 233280, random).

(** [Math.floor (u * (i + 1))] *)
Definition draw (u : Q) (i : nat) : Z :=
  Qfloor (u * inject_Z (Z.of_nat i + 1)).

(** The [for] loop, from the current [i] down to 1, on the array stored at
    [arr].  The destructuring assignment reads [arr[j]] and [arr[i]] and
    then writes [arr[i]] and [arr[j]], in this order. *)
Fixpoint shuffle_loop (arr : loc) (i : nat) (random : Z) (h : heap) : option heap :=
  match i with
  | O => Some h
  | S i' =>
      let '(u, random) := seededRandom random in
      let j := draw u i in
      a ← h !! arr;
      let rhs := (array_get a j, array_get a (Z.of_nat i)) in
      let h := <[arr := array_set a (Z.of_nat i) rhs.1]> h in
      a ← h !! arr;
      let h := <[arr := array_set a j rhs.2]> h in
      shuffle_loop arr i' random h
  end.

Definition seededShuffle (array : loc) (seed : Z) (h : heap) : option (loc * heap) :=
  a ← h !! array;
  let arr := fresh (dom h) in
  let h := <[arr := spread a]> h in
  copy ← h !! arr;
  h ← shuffle_loop arr (length (elems copy) - 1) seed h;
  Some (arr, h).

(** ** The cycle indexer *)

Definition daysSinceEpoch (date : Date) : Z :=
  (getTime date / (1000 * 60 * 60 * 24))%Z.

Definition getCycleSeed (date : Date) (arrayLength : Z) : Z :=
  let cycleNumber := (daysSinceEpoch date / arrayLength)%Z in
  cycleNumber.

Definition getDayInCycle (date : Date) (arrayLength : Z) : Z :=
  Z.rem (daysSinceEpoch date) arrayLength.

(** ** selectByDate *)

Definition selectByDate (array : loc) (date : Date) (h : heap)
  : option (value Item * heap) :=
  a ← h !! array;
  if decide (length (elems a) = 0) then Some (Null, h)
  else
    let seed := getCycleSeed date (Z.of_nat (length (elems a))) in
    let dayIndex := getDayInCycle date (Z.of_nat (length (elems a))) in
    '(shuffled, h) ← seededShuffle array seed h;
    s ← h !! shuffled;
    Some (array_get s dayIndex, h).

(** ** The loop on the array itself

    The loop only touches the object at [arr]; [shuffle_array] is what it
    does to that object. *)
Fixpoint shuffle_array (i : nat) (random : Z) (a : JSArray Item) : JSArray Item :=
  match i with
  | O => a
  | S i' =>
      let '(u, random) := seededRandom random in
      let j := draw u i in
      let rhs := (array_get a j, array_get a (Z.of_nat i)) in
      shuffle_array i' random (array_set (array_set a (Z.of_nat i) rhs.1) j rhs.2)
  end.

(** The result of [selectByDate] as a function of the indexed elements of
    the collection and of the date alone. *)
Definition selection (l : list (value Item)) (date : Date) : value Item :=
  match l with
  | [] => Null
  | _ =>
      let n := Z.of_nat (length l) in
      array_get (shuffle_array (length l - 1) (getCycleSeed date n) (MkArray l ∅))
                (getDayInCycle date n)
  end.

(** ** The shuffle as the specification words it

    State starts at the seed; each step sets
    [state = (state * 9301 + 49297) mod 233280] and yields the fraction
    [state / 233280]; for [i] from [length - 1] down to 1,
    [j = floor (fraction * (i + 1))] and the elements at [i] and [j] are
    swapped. *)
Definition spec_step (state : Z) : Z := ((state * 9301 + 49297) mod 233280)%Z.

Definition spec_fraction (state : Z) : Q := state # 233280.

Definition swap {A} (l : list A) (i j : nat) : list A :=
  match l !! i, l !! j with
  | Some x, Some y => <[j := x]> (<[i := y]> l)
  | _, _ => l
  end.

Fixpoint spec_fisher_yates {A} (i : nat) (state : Z) (l : list A) : list A :=
  match i with
  | O => l
  | S i' =>
      let state := spec_step state in
      let j := Qfloor (spec_fraction state * inject_Z (Z.of_nat i + 1)) in
      spec_fisher_yates i' state (swap l i (Z.to_nat j))
  end.

Definition spec_shuffle {A} (l : list A) (seed : Z) : list A :=
  spec_fisher_yates (length l - 1) seed l.

(** [stored a v]: the array holds [v], as an element or under another
    key. *)
Definition stored (a : JSArray Item) (v : value Item) : Prop :=
  v ∈ elems a ∨ ∃ k : Z, props a !! k = Some v.

(** ** Concrete inputs

    [day d] is midnight UTC of the day [d] days after 1970-01-01 (before
    it for a negative [d]); [store1 l] is a store holding one array, at
    location 1, with the items [l]. *)
Definition day (d : Z) : Date := MkDate (d * 86400000).

Definition store1 (l : list Item) : heap :=
  {[ 1%positive := MkArray (Obj <$> l) ∅ ]}.


End Selection.

(** ** The page script

    The entries of the photo list are objects; of their fields the script
    reads [download_url] only, a string or [null].  The page is the part
    of the browser the script acts on: the markup of the document body
    and the messages written with [console.error], oldest first. *)
Record Photo : Type := MkPhoto {
  name : string;
  download_url : option string
}.

Record Page : Type := MkPage {
  innerHTML : string;
  errors : list string
}.

(** The double quote character, as a string. *)
Definition dquote : string := String (Ascii.ascii_of_nat 34) EmptyString.

(** The template literal of [insertImageIntoDocument], with [imageUrl]
    interpolated as it is. *)
Definition img_markup (imageUrl : string) : string :=
  "<img src=" +:+ dquote +:+ imageUrl +:+ dquote
  +:+ " alt=" +:+ dquote +:+ "Daily Photo" +:+ dquote
  +:+ " style=" +:+ dquote +:+ "max-width: 100%; height: auto;" +:+ dquote
  +:+ ">".

Definition insertImageIntoDocument (imageUrl : string) (page : Page) : Page :=
  MkPage (img_markup imageUrl) (errors page).

Definition console_error (message : string) (page : Page) : Page :=
  MkPage (innerHTML page) (errors page ++ [message]).

(** The callback passed to [then], run on the fetched list [photos] with
    [currentDate].  [selectedPhoto && selectedPhoto.download_url] holds
    for an object whose [download_url] is a non-empty string; [null],
    [undefined] and the empty string are falsy. *)
Definition onPhotoList (photos : loc) (currentDate : Date)
    (h : gmap loc (JSArray Photo)) (page : Page)
  : option (Page * gmap loc (JSArray Photo)) :=
  '(selectedPhoto, h) ← selectByDate photos currentDate h;
  match selectedPhoto with
  | Obj photo =>
      match download_url photo with
      | Some (String c s) => Some (insertImageIntoDocument (String c s) page, h)
      | _ => Some (console_error "No photo selected or download URL missing." page, h)
      end
  | _ => Some (console_error "No photo selected or download URL missing." page, h)
  end.

(** A photo list with three entries, each with a [download_url]. *)
Definition three_photos : list Photo :=
  [ MkPhoto "a.png" (Some "https://example.org/a.png");
    MkPhoto "b.png" (Some "https://example.org/b.png");
    MkPhoto "c.png" (Some "https://example.org/c.png") ].

Section SelectionProperties.
Context {Item : Type}.

Abbreviation heap := (gmap loc (JSArray Item)).

(** ** Arrays: reads and writes inside the index range *)

Lemma swap_length {A} (l : list A) (i j : nat) : length (swap l i j) = length l.
Proof.
  unfold swap. destruct (l !! i), (l !! j); trivial.
  now rewrite !length_insert.
Qed.

Lemma swap_Permutation {A} (l : list A) (i j : nat) : swap l i j ≡ₚ l.
Proof.
  unfold swap.
  destruct (l !! i) as [x|] eqn:Hi; [|reflexivity].
  destruct (l !! j) as [y|] eqn:Hj; [|reflexivity].
  now apply Permutation_insert_swap.
Qed.

Lemma array_get_index (a : JSArray Item) (k : nat) :
  array_get a (Z.of_nat k) = default Undefined (elems a !! k).
Proof.
  unfold array_get. rewrite decide_True by lia. now rewrite Nat2Z.id.
Qed.

Lemma array_get_negative (a : JSArray Item) (k : Z) :
  (k < 0)%Z → array_get a k = default Undefined (props a !! k).
Proof. intros Hk. unfold array_get. now rewrite decide_False by lia. Qed.

Lemma array_set_index (a : JSArray Item) (k : nat) (v : value Item) :
  k < length (elems a) →
  array_set a (Z.of_nat k) v = MkArray (<[k := v]> (elems a)) (props a).
Proof.
  intros Hk. unfold array_set.
  rewrite decide_True by lia. rewrite Nat2Z.id.
  now rewrite decide_True by exact Hk.
Qed.

Lemma array_set_negative (a : JSArray Item) (k : Z) (v : value Item) :
  (k < 0)%Z → array_set a k v = MkArray (elems a) (<[k := v]> (props a)).
Proof. intros Hk. unfold array_set. now rewrite decide_False by lia. Qed.

(** With [0 <= j <= i < length], the destructuring assignment of the loop
    body is the swap of the elements at [i] and [j]. *)
Lemma assignment_is_swap (a : JSArray Item) (i : nat) (j : Z) :
  i < length (elems a) → (0 ≤ j ≤ Z.of_nat i)%Z →
  array_set (array_set a (Z.of_nat i) (array_get a j)) j (array_get a (Z.of_nat i))
  = MkArray (swap (elems a) i (Z.to_nat j)) (props a).
Proof.
  intros Hi Hj.
  destruct (lookup_lt_is_Some_2 (elems a) i Hi) as [x Hx].
  destruct (lookup_lt_is_Some_2 (elems a) (Z.to_nat j)) as [y Hy]; [lia|].
  rewrite <- (Z2Nat.id j) at 1 2 by lia.
  rewrite !array_get_index, Hx, Hy. cbn [default id].
  rewrite (array_set_index a i y Hi).
  rewrite array_set_index by (cbn [elems]; rewrite length_insert; lia).
  unfold swap. now rewrite Hx, Hy.
Qed.

(** ** The generator *)

Lemma seededRandom_state (random : Z) :
  (seededRandom random).2 = Z.rem (random * 9301 + 49297) 233280.
Proof. reflexivity. Qed.

Lemma seededRandom_fraction (random : Z) :
  (seededRandom random).1 = (seededRandom random).2 # 233280.
Proof. reflexivity. Qed.

(** From a state of at least -5 the dividend [random * 9301 + 49297] is
    positive, and so is every later one: the state stays in
    [[0, 233280)].  This covers every non-negative seed. *)
Lemma seededRandom_nonneg (random : Z) :
  (-5 ≤ random)%Z → (0 ≤ (seededRandom random).2 < 233280)%Z.
Proof.
  intros Hr. rewrite seededRandom_state.
  apply Z.rem_bound_pos; lia.
Qed.

Lemma seededRandom_spec_step (random : Z) :
  (-5 ≤ random)%Z → (seededRandom random).2 = spec_step random.
Proof.
  intros Hr. rewrite seededRandom_state. unfold spec_step.
  apply Z.rem_mod_nonneg; lia.
Qed.

Lemma draw_exact (r : Z) (i : nat) :
  draw (r # 233280) i = (r * (Z.of_nat i + 1) / 233280)%Z.
Proof. reflexivity. Qed.

Lemma draw_range (r : Z) (i : nat) :
  (0 ≤ r < 233280)%Z → (0 ≤ draw (r # 233280) i ≤ Z.of_nat i)%Z.
Proof.
  intros Hr. rewrite draw_exact. split.
  - apply Z.div_pos; nia.
  - apply Z.lt_succ_r, Z.div_lt_upper_bound; nia.
Qed.


(** ** The loop in the store and on the array *)

Lemma shuffle_loop_array (arr : loc) (i : nat) :
  ∀ (random : Z) (a : JSArray Item) (h : heap),
    shuffle_loop arr i random (<[arr := a]> h)
    = Some (<[arr := shuffle_array i random a]> h).
Proof.
  induction i as [|i IH]; intros random a h; [reflexivity|].
  cbn [shuffle_loop shuffle_array].
  destruct (seededRandom random) as [u random'].
  rewrite lookup_insert_eq. cbn [mbind option_bind].
  rewrite insert_insert_eq, lookup_insert_eq. cbn [mbind option_bind].
  rewrite insert_insert_eq. apply IH.
Qed.

Lemma fresh_unallocated (h : heap) : h !! fresh (dom h) = None.
Proof. apply not_elem_of_dom, is_fresh. Qed.

Lemma seededShuffle_eq (h : heap) (array : loc) (a : JSArray Item) (seed : Z) :
  h !! array = Some a →
  seededShuffle array seed h
  = Some (fresh (dom h),
          <[fresh (dom h) := shuffle_array (length (elems a) - 1) seed (spread a)]> h).
Proof.
  intros Ha. unfold seededShuffle. rewrite Ha. cbn [mbind option_bind].
  rewrite lookup_insert_eq. cbn [mbind option_bind].
  rewrite shuffle_loop_array. reflexivity.
Qed.

Lemma selectByDate_eq (h : heap) (array : loc) (a : JSArray Item) (date : Date) :
  h !! array = Some a →
  selectByDate array date h
  = Some (selection (elems a) date,
          if decide (length (elems a) = 0) then h
          else <[fresh (dom h) :=
                   shuffle_array (length (elems a) - 1)
                     (getCycleSeed date (Z.of_nat (length (elems a)))) (spread a)]> h).
Proof.
  intros Ha. unfold selectByDate. rewrite Ha. cbn [mbind option_bind].
  destruct (decide (length (elems a) = 0)) as [Hn|Hn].
  - destruct (elems a); [reflexivity | discriminate].
  - rewrite (seededShuffle_eq h array a _ Ha). cbn [mbind option_bind].
    rewrite lookup_insert_eq. cbn [mbind option_bind].
    unfold selection, spread. destruct (elems a); [contradiction | reflexivity].
Qed.

(** ** The shuffle from a seed of at least -5 *)

Lemma spec_fisher_yates_Permutation {A} (i : nat) :
  ∀ (state : Z) (l : list A), spec_fisher_yates i state l ≡ₚ l.
Proof.
  induction i as [|i IH]; intros state l; [reflexivity|].
  cbn [spec_fisher_yates]. rewrite IH. apply swap_Permutation.
Qed.

Lemma spec_shuffle_Permutation {A} (l : list A) (seed : Z) : spec_shuffle l seed ≡ₚ l.
Proof. apply spec_fisher_yates_Permutation. Qed.

Lemma spec_shuffle_length {A} (l : list A) (seed : Z) :
  length (spec_shuffle l seed) = length l.
Proof. apply Permutation_length, spec_shuffle_Permutation. Qed.

Lemma shuffle_array_spec (i : nat) :
  ∀ (random : Z) (a : JSArray Item),
    (-5 ≤ random)%Z → i ≤ length (elems a) - 1 →
    shuffle_array i random a = MkArray (spec_fisher_yates i random (elems a)) (props a).
Proof.
  induction i as [|i IH]; intros random a Hr Hi.
  - now destruct a.
  - cbn [shuffle_array spec_fisher_yates].
    pose proof (seededRandom_nonneg random Hr) as Hs.
    pose proof (seededRandom_spec_step random Hr) as Hstep.
    pose proof (seededRandom_fraction random) as Hu.
    destruct (seededRandom random) as [u r]. cbn [fst snd] in Hs, Hstep, Hu.
    subst u. cbv zeta. cbn [fst snd].
    pose proof (draw_range r (S i) Hs) as Hj.
    rewrite assignment_is_swap by lia.
    rewrite IH by (cbn [elems]; rewrite ?swap_length; lia).
    cbn [elems props]. now rewrite <- Hstep.
Qed.

(** ** What the shuffle can leave in an array, whatever the seed *)

Lemma elem_of_insert_cases {A} (l : list A) (i : nat) (v w : A) :
  w ∈ <[i := v]> l → w = v ∨ w ∈ l.
Proof.
  intros [k Hk]%list_elem_of_lookup.
  apply list_lookup_insert_Some in Hk as [(_ & -> & _)|[_ Hk]]; [now left|].
  right. eapply list_elem_of_lookup_2, Hk.
Qed.

Lemma array_get_stored (a : JSArray Item) (k : Z) :
  array_get a k = Undefined ∨ stored a (array_get a k).
Proof.
  unfold array_get, stored. destruct (decide (0 ≤ k)%Z).
  - destruct (elems a !! Z.to_nat k) as [v|] eqn:Hv; [|now left].
    right; left. eapply list_elem_of_lookup_2, Hv.
  - destruct (props a !! k) as [v|] eqn:Hv; [|now left].
    right; right. now exists k.
Qed.

Lemma array_set_stored (a : JSArray Item) (k : Z) (v w : value Item) :
  stored (array_set a k v) w → w = v ∨ w = Undefined ∨ stored a w.
Proof.
  unfold array_set, stored.
  destruct (decide (0 ≤ k)%Z); [destruct (decide (Z.to_nat k < length (elems a)))|];
    cbn [elems props]; intros [Hw|[k' Hw]].
  - apply elem_of_insert_cases in Hw as [->|Hw]; auto.
  - right; right; right. now exists k'.
  - rewrite !elem_of_app, elem_of_replicate, list_elem_of_singleton in Hw.
    destruct Hw as [Hw|[[-> _]| ->]]; auto.
  - right; right; right. now exists k'.
  - auto.
  - rewrite lookup_insert in Hw. case_decide as Hk.
    + left. congruence.
    + right; right; right. now exists k'.
Qed.

Lemma shuffle_array_stored (i : nat) :
  ∀ (random : Z) (a : JSArray Item) (w : value Item),
    stored (shuffle_array i random a) w → w = Undefined ∨ stored a w.
Proof.
  induction i as [|i IH]; intros random a w Hw; [now right|].
  cbn [shuffle_array] in Hw. destruct (seededRandom random) as [u r].
  cbv zeta in Hw. cbn [fst snd] in Hw.
  apply IH in Hw as [->|Hw]; [now left|].
  apply array_set_stored in Hw as [->|[->|Hw]]; [|now left|].
  { destruct (array_get_stored a (Z.of_nat (S i))); auto. }
  apply array_set_stored in Hw as [->|[->|Hw]]; [|now left|now right].
  destruct (array_get_stored a (draw u (S i))); auto.
Qed.

(** ** The cycle indexer *)

Lemma getCycleSeed_floor (date : Date) (N : Z) :
  (0 < N)%Z →
  getCycleSeed date N = (daysSinceEpoch date / N)%Z
  ∧ (N * getCycleSeed date N ≤ daysSinceEpoch date < N * (getCycleSeed date N + 1))%Z.
Proof.
  intros HN. unfold getCycleSeed. split; [reflexivity|]. split.
  - now apply Z.mul_div_le.
  - now apply Z.mul_succ_div_gt.
Qed.

Lemma getDayInCycle_from_epoch (date : Date) (N : Z) :
  (0 ≤ daysSinceEpoch date)%Z → (0 < N)%Z →
  getDayInCycle date N = (daysSinceEpoch date mod N)%Z
  ∧ (0 ≤ getDayInCycle date N < N)%Z.
Proof.
  intros Hd HN. unfold getDayInCycle. split.
  - now apply Z.rem_mod_nonneg.
  - now apply Z.rem_bound_pos.
Qed.

Lemma getDayInCycle_before_epoch (date : Date) (N : Z) :
  (daysSinceEpoch date < 0)%Z → (0 < N)%Z → ¬ (N | daysSinceEpoch date)%Z →
  (- N < getDayInCycle date N < 0)%Z.
Proof.
  intros Hd HN Hdiv. unfold getDayInCycle.
  assert (Z.rem (daysSinceEpoch date) N ≠ 0%Z) as Hne.
  { intros H0. apply Hdiv, Z.rem_divide; [lia | exact H0]. }
  pose proof (Z.rem_opp_l (- daysSinceEpoch date) N ltac:(lia)) as Hopp.
  rewrite Z.opp_involutive in Hopp.
  pose proof (Z.rem_bound_pos (- daysSinceEpoch date) N ltac:(lia) HN).
  lia.
Qed.

Lemma day_of_cycle (date : Date) (N s : Z) (k : nat) :
  (0 ≤ s)%Z → (Z.of_nat k < N)%Z →
  daysSinceEpoch date = (s * N + Z.of_nat k)%Z →
  getCycleSeed date N = s ∧ getDayInCycle date N = Z.of_nat k.
Proof.
  intros Hs Hk Hd. unfold getCycleSeed, getDayInCycle. rewrite Hd. split.
  - symmetry. apply Z.div_unique_pos with (r := Z.of_nat k); lia.
  - rewrite Z.rem_mod_nonneg by nia.
    symmetry. apply Z.mod_unique_pos with (q := s); lia.
Qed.

(** ** Selections over one cycle that starts at or after the epoch *)

Lemma selection_shuffle (l : list (value Item)) (date : Date) :
  l ≠ [] → (-5 ≤ getCycleSeed date (Z.of_nat (length l)))%Z →
  selection l date
  = array_get (MkArray (spec_shuffle l (getCycleSeed date (Z.of_nat (length l)))) ∅)
              (getDayInCycle date (Z.of_nat (length l))).
Proof.
  intros Hl Hs. unfold selection, spec_shuffle.
  destruct l as [|v l]; [contradiction|].
  now rewrite shuffle_array_spec by (trivial; cbn [elems]; lia).
Qed.

Lemma selection_in_cycle (l : list (value Item)) (s : Z) (k : nat) (date : Date) :
  (0 ≤ s)%Z → k < length l →
  daysSinceEpoch date = (s * Z.of_nat (length l) + Z.of_nat k)%Z →
  spec_shuffle l s !! k = Some (selection l date).
Proof.
  intros Hs Hk Hd.
  destruct (day_of_cycle date (Z.of_nat (length l)) s k Hs ltac:(lia) Hd) as [Hseed Hday].
  rewrite selection_shuffle by (try rewrite Hseed; try lia; intros ->; inversion Hk).
  rewrite Hseed, Hday, array_get_index. cbn [elems].
  destruct (lookup_lt_is_Some_2 (spec_shuffle l s) k) as [v Hv].
  { now rewrite spec_shuffle_length. }
  now rewrite Hv.
Qed.

(** For a cycle seed [s >= 0]: the dates of the [N] consecutive days of the
    cycle, in increasing order, select the elements of the shuffled
    collection at positions [0, 1, ..., N-1], each slot once; the shuffled
    collection is a permutation of the collection. *)
Theorem cycle_selections_from_epoch (l : list (value Item)) (s : Z) (dates : list Date) :
  (0 ≤ s)%Z →
  daysSinceEpoch <$> dates
  = (λ k : nat, (s * Z.of_nat (length l) + Z.of_nat k)%Z) <$> seq 0 (length l) →
  selection l <$> dates = spec_shuffle l s ∧ spec_shuffle l s ≡ₚ l.
Proof.
  intros Hs Hdays. split; [|apply spec_shuffle_Permutation].
  assert (length dates = length l) as Hlen.
  { apply (f_equal length) in Hdays.
    now rewrite !length_fmap, length_seq in Hdays. }
  apply list_eq. intros k. rewrite list_lookup_fmap.
  destruct (dates !! k) as [d|] eqn:Hd; cbn [fmap option_fmap option_map].
  - assert (k < length l) as Hk by (rewrite <- Hlen; eapply lookup_lt_Some, Hd).
    apply (f_equal (λ x, x !! k)) in Hdays.
    rewrite !list_lookup_fmap, Hd, lookup_seq_lt in Hdays by exact Hk.
    cbn in Hdays. injection Hdays as Hdays.
    symmetry. now apply selection_in_cycle.
  - symmetry. apply lookup_ge_None. rewrite spec_shuffle_length, <- Hlen.
    now apply lookup_ge_None.
Qed.

(** ** seededShuffle in the store *)

Lemma seededShuffle_allocates (h : heap) (array : loc) (a : JSArray Item) (seed : Z) :
  h !! array = Some a → fresh (dom h) ≠ array.
Proof.
  intros Ha Heq. pose proof (fresh_unallocated h) as Hf.
  rewrite Heq, Ha in Hf. discriminate.
Qed.



(** C2, at the seed -6 and a collection of two items: the generator state
    becomes -6509, the draw for [i = 1] is [j = -1], and the assignment
    puts [undefined] at index 1 and the second item under the key -1.  The
    returned elements are not a permutation of the input. *)
Theorem seededShuffle_seed_minus6_not_Permutation (x y : Item) :
  ∃ (arr : loc) (h' : heap),
    seededShuffle 1%positive (-6) (store1 [x; y]) = Some (arr, h')
    ∧ h' !! arr = Some (MkArray [Obj x; Undefined] {[ (-1)%Z := Obj y ]})
    ∧ ¬ ([Obj x; Undefined] ≡ₚ [Obj x; Obj y]).
Proof.
  eexists _, _. split; [apply seededShuffle_eq, lookup_singleton_eq|].
  split; [rewrite lookup_insert_eq; reflexivity|].
  intros Hp.
  assert (Undefined ∈ [Obj x; Obj y]) as Hin.
  { rewrite <- Hp. apply list_elem_of_further, list_elem_of_here. }
  apply elem_of_cons in Hin as [Hin|Hin]; [discriminate|].
  apply list_elem_of_singleton in Hin. discriminate.
Qed.

(** C3, at the seed -6 and a collection of two items: the code's fraction
    is -6509/233280, outside [[0, 1)], where the specified step gives
    226771/233280; the specified shuffle leaves the two items in place,
    the code returns the first item followed by [undefined]. *)
Theorem seededShuffle_seed_minus6_departs_from_spec (x y : Item) :
  (seededRandom (-6)).1 = -6509 # 233280
  ∧ spec_fraction (spec_step (-6)) = 226771 # 233280
  ∧ spec_shuffle [Obj x; Obj y] (-6) = [Obj x; Obj y]
  ∧ ∃ (arr : loc) (h' : heap) (s : JSArray Item),
      seededShuffle 1%positive (-6) (store1 [x; y]) = Some (arr, h')
      ∧ h' !! arr = Some s
      ∧ elems s = [Obj x; Undefined]
      ∧ elems s ≠ spec_shuffle [Obj x; Obj y] (-6).
Proof.
  split; [reflexivity|]. split; [reflexivity|]. split; [reflexivity|].
  eexists _, _, _. split; [apply seededShuffle_eq, lookup_singleton_eq|].
  split; [apply lookup_insert_eq|]. split; [reflexivity|]. discriminate.
Qed.

(** C8: for every seed, [seededShuffle] of an array of length 0 or 1
    returns a new array with the same elements, in the same order. *)
Theorem seededShuffle_short (h : heap) (array : loc) (a : JSArray Item) (seed : Z) :
  h !! array = Some a → length (elems a) ≤ 1 →
  ∃ (arr : loc) (h' : heap) (s : JSArray Item),
    seededShuffle array seed h = Some (arr, h')
    ∧ arr ≠ array ∧ h' !! arr = Some s ∧ elems s = elems a.
Proof.
  intros Ha Hlen. eexists _, _, _.
  split; [apply (seededShuffle_eq h array a seed Ha)|].
  split; [apply (seededShuffle_allocates h array a seed Ha)|].
  split; [apply lookup_insert_eq|].
  replace (length (elems a) - 1) with 0 by lia. reflexivity.
Qed.

(** C9: for every seed, [seededShuffle] leaves the input array as it was,
    and every other object of the store too; the array it returns is at a
    location that was not allocated before the call, so it is not the
    input. *)
Theorem seededShuffle_input_unchanged (h : heap) (array : loc) (a : JSArray Item) (seed : Z) :
  h !! array = Some a →
  ∃ (arr : loc) (h' : heap),
    seededShuffle array seed h = Some (arr, h')
    ∧ h' !! array = Some a
    ∧ arr ≠ array ∧ h !! arr = None ∧ is_Some (h' !! arr)
    ∧ ∀ l : loc, l ≠ arr → h' !! l = h !! l.
Proof.
  intros Ha. pose proof (seededShuffle_allocates h array a seed Ha) as Hne.
  eexists _, _. split; [apply (seededShuffle_eq h array a seed Ha)|].
  split; [now rewrite lookup_insert_ne|].
  split; [exact Hne|]. split; [apply fresh_unallocated|].
  split; [rewrite lookup_insert_eq; eauto|].
  intros l Hl. now rewrite lookup_insert_ne.
Qed.

(** ** selectByDate *)

Lemma selectByDate_selection (h : heap) (array : loc) (a : JSArray Item) (date : Date) :
  h !! array = Some a →
  fst <$> selectByDate array date h = Some (selection (elems a) date).
Proof. intros Ha. now rewrite (selectByDate_eq h array a date Ha). Qed.

(** C1, at a collection of three items and the cycle of seed -1, the days
    -3, -2 and -1: the day indices are 0, -2 and -1, so the three
    selections read slot 0 and then twice outside the array; slots 1 and
    2 of the shuffled collection are never selected. *)
Theorem cycle_before_epoch_misses_slots (x y z : Item) :
  (getCycleSeed (day (-3)) 3 = -1 ∧ getCycleSeed (day (-2)) 3 = -1
   ∧ getCycleSeed (day (-1)) 3 = -1)%Z
  ∧ (getDayInCycle (day (-3)) 3 = 0 ∧ getDayInCycle (day (-2)) 3 = -2
     ∧ getDayInCycle (day (-1)) 3 = -1)%Z
  ∧ (∃ (arr : loc) (h' : heap),
       seededShuffle 1%positive (-1) (store1 [x; y; z]) = Some (arr, h')
       ∧ h' !! arr = Some (MkArray [Obj z; Obj y; Obj x] ∅))
  ∧ fst <$> selectByDate 1%positive (day (-3)) (store1 [x; y; z]) = Some (Obj z)
  ∧ fst <$> selectByDate 1%positive (day (-2)) (store1 [x; y; z]) = Some Undefined
  ∧ fst <$> selectByDate 1%positive (day (-1)) (store1 [x; y; z]) = Some Undefined.
Proof.
  split; [now vm_compute|]. split; [now vm_compute|].
  split.
  { eexists _, _. split; [apply seededShuffle_eq, lookup_singleton_eq|].
    rewrite lookup_insert_eq. reflexivity. }
  unfold store1.
  rewrite !(selectByDate_eq _ 1%positive _ _ (lookup_singleton_eq _ _)).
  now vm_compute.
Qed.

(** C4, on 1969-12-31 (day count -1) and [N = 3]: the cycle seed is
    [floor (-1 / 3) = -1], and the day index is the truncated remainder
    -1, where the floored modulo is 2; the index is not in [[0, 3)]. *)
Theorem getDayInCycle_eve_of_epoch :
  daysSinceEpoch (day (-1)) = (-1)%Z
  ∧ getCycleSeed (day (-1)) 3 = (-1)%Z
  ∧ getDayInCycle (day (-1)) 3 = (-1)%Z
  ∧ (daysSinceEpoch (day (-1)) mod 3 = 2)%Z
  ∧ ¬ (0 ≤ getDayInCycle (day (-1)) 3 < 3)%Z.
Proof.
  repeat split; try reflexivity.
  change (getDayInCycle (day (-1)) 3) with (-1)%Z. lia.
Qed.

(** C5: two calls of [selectByDate] on the same array and the same date,
    one after the other in the store the first one leaves, return the
    same result; it is a function of the elements of the array and of the
    date, and of nothing else. *)
Theorem selectByDate_deterministic (h : heap) (array : loc) (a : JSArray Item) (date : Date) :
  h !! array = Some a →
  ∃ (r : value Item) (h1 h2 : heap),
    selectByDate array date h = Some (r, h1)
    ∧ selectByDate array date h1 = Some (r, h2)
    ∧ r = selection (elems a) date.
Proof.
  intros Ha. rewrite (selectByDate_eq h array a date Ha).
  eexists _, _, _. split; [reflexivity|]. split; [|reflexivity].
  apply selectByDate_eq.
  destruct (decide (length (elems a) = 0)); [exact Ha|].
  rewrite lookup_insert_ne; [exact Ha|].
  apply (seededShuffle_allocates h array a 0 Ha).
Qed.

(** C6: for every date, [selectByDate] on an empty array returns [null],
    as a value, and leaves the store as it was. *)
Theorem selectByDate_empty (h : heap) (array : loc) (a : JSArray Item) (date : Date) :
  h !! array = Some a → elems a = [] →
  selectByDate array date h = Some (Null, h).
Proof.
  intros Ha Hl. rewrite (selectByDate_eq h array a date Ha), Hl. reflexivity.
Qed.

(** C7: for an array of three elements and a date whose day count is 10,
    the cycle seed is 3, the day index is 1, and [selectByDate] returns
    the element at index 1 of [seededShuffle] with seed 3; that shuffle
    of [[x, y, z]] is [[y, z, x]], so the result is [z]. *)
Theorem selectByDate_day_ten
    (h : heap) (array : loc) (a : JSArray Item) (date : Date) (x y z : value Item) :
  h !! array = Some a → elems a = [x; y; z] → daysSinceEpoch date = 10%Z →
  getCycleSeed date 3 = 3%Z ∧ getDayInCycle date 3 = 1%Z
  ∧ ∃ (shuffled : loc) (h' : heap) (s : JSArray Item),
      seededShuffle array 3 h = Some (shuffled, h') ∧ h' !! shuffled = Some s
      ∧ elems s = [y; z; x]
      ∧ selectByDate array date h = Some (array_get s 1, h')
      ∧ array_get s 1 = z.
Proof.
  intros Ha Hl Hd.
  assert (getCycleSeed date 3 = 3%Z) as Hseed.
  { unfold getCycleSeed. now rewrite Hd. }
  assert (getDayInCycle date 3 = 1%Z) as Hday.
  { unfold getDayInCycle. now rewrite Hd. }
  split; [exact Hseed|]. split; [exact Hday|].
  eexists _, _, _. split; [apply (seededShuffle_eq h array a 3 Ha)|].
  split; [apply lookup_insert_eq|].
  rewrite (selectByDate_eq h array a date Ha).
  unfold selection, spread. rewrite Hl.
  change (Z.of_nat (length [x; y; z])) with 3%Z.
  rewrite Hseed, Hday. now vm_compute.
Qed.

(** C10, as amended: for an array of length [N > 0] and a date whose day
    count is negative and not a multiple of [N], the day index is
    negative (in [(-N, 0)]) and [selectByDate] reads the shuffled array
    under that negative key, outside the index range.  The result is
    [undefined] or an element of the collection; it is [undefined] when
    the cycle seed is at least -5. *)
Theorem selectByDate_before_epoch (h : heap) (array : loc) (a : JSArray Item) (date : Date) :
  h !! array = Some a → elems a ≠ [] →
  (daysSinceEpoch date < 0)%Z →
  ¬ (Z.of_nat (length (elems a)) | daysSinceEpoch date)%Z →
  (- Z.of_nat (length (elems a)) < getDayInCycle date (Z.of_nat (length (elems a))) < 0)%Z
  ∧ ∃ (r : value Item) (h' : heap),
      selectByDate array date h = Some (r, h')
      ∧ (r = Undefined ∨ r ∈ elems a)
      ∧ ((-5 ≤ getCycleSeed date (Z.of_nat (length (elems a))))%Z → r = Undefined).
Proof.
  intros Ha Hl Hd Hdiv.
  assert (0 < Z.of_nat (length (elems a)))%Z as HN.
  { destruct (elems a); [contradiction | cbn [length]; lia]. }
  pose proof (getDayInCycle_before_epoch date _ Hd HN Hdiv) as Hday.
  split; [exact Hday|].
  rewrite (selectByDate_eq h array a date Ha).
  eexists _, _. split; [reflexivity|]. split.
  - unfold selection. destruct (elems a) as [|v l] eqn:El; [contradiction|].
    match goal with |- array_get ?s ?k = _ ∨ _ =>
      destruct (array_get_stored s k) as [Hu|Hst]; [now left|] end.
    apply shuffle_array_stored in Hst as [Hu|[Hin|[k Hk]]];
      [now left | now right |].
    cbn [props] in Hk. rewrite lookup_empty in Hk. discriminate.
  - intros Hs. rewrite selection_shuffle by trivial.
    rewrite array_get_negative by lia. cbn [props]. now rewrite lookup_empty.
Qed.

(** ** The shuffle, whatever the seed *)

Lemma seededRandom_bounded (random : Z) :
  (-233280 < (seededRandom random).2 < 233280)%Z.
Proof.
  rewrite seededRandom_state.
  pose proof (Z.rem_bound_abs (random * 9301 + 49297) 233280 ltac:(lia)). lia.
Qed.

Lemma draw_bounds (r : Z) (i : nat) :
  (-233280 < r < 233280)%Z →
  (- (Z.of_nat i + 1) ≤ draw (r # 233280) i ≤ Z.of_nat i)%Z.
Proof.
  intros Hr. rewrite draw_exact. split.
  - apply Z.div_le_lower_bound; nia.
  - apply Z.lt_succ_r, Z.div_lt_upper_bound; nia.
Qed.

Lemma array_set_length (a : JSArray Item) (k : Z) (v : value Item) :
  (k < Z.of_nat (length (elems a)))%Z →
  length (elems (array_set a k v)) = length (elems a).
Proof.
  intros Hk. destruct (decide (0 ≤ k)%Z) as [Hk0|Hk0].
  - rewrite <- (Z2Nat.id k) by exact Hk0.
    rewrite array_set_index by lia. cbn [elems]. apply length_insert.
  - now rewrite array_set_negative by lia.
Qed.

Lemma assignment_length (a : JSArray Item) (i : nat) (j : Z) (vi vj : value Item) :
  i < length (elems a) → (j ≤ Z.of_nat i)%Z →
  length (elems (array_set (array_set a (Z.of_nat i) vj) j vi)) = length (elems a).
Proof.
  intros Hi Hj.
  assert (length (elems (array_set a (Z.of_nat i) vj)) = length (elems a)) as H1
    by (apply array_set_length; lia).
  rewrite array_set_length; [exact H1 | rewrite H1; lia].
Qed.

Lemma shuffle_array_length (i : nat) :
  ∀ (random : Z) (a : JSArray Item),
    i ≤ length (elems a) - 1 →
    length (elems (shuffle_array i random a)) = length (elems a).
Proof.
  induction i as [|i IH]; intros random a Hi; [reflexivity|].
  cbn [shuffle_array].
  pose proof (seededRandom_bounded random) as Hs.
  pose proof (seededRandom_fraction random) as Hu.
  destruct (seededRandom random) as [u r]. cbn [fst snd] in Hs, Hu. subst u.
  cbv zeta. cbn [fst snd].
  pose proof (draw_bounds r (S i) Hs) as Hj.
  assert (length (elems (array_set (array_set a (Z.of_nat (S i))
                                      (array_get a (draw (r # 233280) (S i))))
                            (draw (r # 233280) (S i)) (array_get a (Z.of_nat (S i)))))
          = length (elems a)) as Hlen by (apply assignment_length; lia).
  rewrite IH; [exact Hlen | rewrite Hlen; lia].
Qed.




(** X2: For every seed, also a negative one, the array returned by
    [seededShuffle] has the length of the input: the loop never writes
    past the end. *)
Theorem seededShuffle_keeps_length (h : heap) (array : loc) (a : JSArray Item) (seed : Z) :
  h !! array = Some a →
  ∃ (arr : loc) (h' : heap) (s : JSArray Item),
    seededShuffle array seed h = Some (arr, h') ∧ h' !! arr = Some s
    ∧ length (elems s) = length (elems a).
Proof.
  intros Ha. eexists _, _, _.
  split; [apply (seededShuffle_eq h array a seed Ha)|].
  split; [apply lookup_insert_eq|].
  now rewrite shuffle_array_length by (cbn [spread elems]; lia).
Qed.


(** ** Seeds that differ by the modulus *)

Lemma seededRandom_period (random : Z) :
  (-5 ≤ random)%Z → seededRandom (random + 233280) = seededRandom random.
Proof.
  intros Hr. unfold seededRandom.
  replace (Z.rem ((random + 233280) * 9301 + 49297) 233280)
    with (Z.rem (random * 9301 + 49297) 233280); [reflexivity|].
  rewrite !Z.rem_mod_nonneg by lia.
  replace ((random + 233280) * 9301 + 49297)%Z
    with (random * 9301 + 49297 + 9301 * 233280)%Z by lia.
  now rewrite Z_mod_plus_full.
Qed.

Lemma shuffle_array_period (i : nat) (random : Z) (a : JSArray Item) :
  (-5 ≤ random)%Z → shuffle_array i (random + 233280) a = shuffle_array i random a.
Proof.
  intros Hr. destruct i as [|i]; [reflexivity|].
  cbn [shuffle_array]. now rewrite seededRandom_period.
Qed.


(** ** Days *)

Lemma daysSinceEpoch_bounds (date : Date) :
  (daysSinceEpoch date * 86400000 ≤ getTime date
   < (daysSinceEpoch date + 1) * 86400000)%Z.
Proof.
  unfold daysSinceEpoch. change (1000 * 60 * 60 * 24)%Z with 86400000%Z.
  pose proof (Z.mul_div_le (getTime date) 86400000 ltac:(lia)).
  pose proof (Z.mul_succ_div_gt (getTime date) 86400000 ltac:(lia)). lia.
Qed.

Lemma daysSinceEpoch_unique (date : Date) (d : Z) :
  (d * 86400000 ≤ getTime date < (d + 1) * 86400000)%Z → daysSinceEpoch date = d.
Proof.
  intros Ht. pose proof (daysSinceEpoch_bounds date). nia.
Qed.

(** X8: Two instants of the same UTC day, before or after the epoch, select
    the same element: the result changes at midnight UTC only. *)
Theorem selectByDate_same_day (h : heap) (array : loc) (d : Z) (date1 date2 : Date) :
  (d * 86400000 ≤ getTime date1 < (d + 1) * 86400000)%Z →
  (d * 86400000 ≤ getTime date2 < (d + 1) * 86400000)%Z →
  selectByDate array date1 h = selectByDate array date2 h.
Proof.
  intros H1%daysSinceEpoch_unique H2%daysSinceEpoch_unique.
  unfold selectByDate, getCycleSeed, getDayInCycle. now rewrite H1, H2.
Qed.

(** ** Cycle seed and day index together *)

(** X6: For [N > 0]: on a day count that is non-negative or a multiple of [N],
    seed and index are quotient and remainder of the day count,
    [N * seed + index = days] with the index in [[0, N)]; on any other day
    count the index is negative and [N * seed + index] is the day count
    of [N] days earlier. *)
Theorem seed_index_decomposition (date : Date) (N : Z) :
  (0 < N)%Z →
  ((0 ≤ daysSinceEpoch date)%Z ∨ (N | daysSinceEpoch date)%Z →
   (N * getCycleSeed date N + getDayInCycle date N = daysSinceEpoch date
    ∧ 0 ≤ getDayInCycle date N < N)%Z)
  ∧ ((daysSinceEpoch date < 0)%Z ∧ ¬ (N | daysSinceEpoch date)%Z →
     (N * getCycleSeed date N + getDayInCycle date N = daysSinceEpoch date - N
      ∧ - N < getDayInCycle date N < 0)%Z).
Proof.
  intros HN.
  pose proof (Z.div_mod (daysSinceEpoch date) N ltac:(lia)) as Hdm.
  pose proof (Z.mod_pos_bound (daysSinceEpoch date) N HN) as Hm.
  split.
  - intros [Hd|Hdiv].
    + destruct (getDayInCycle_from_epoch date N Hd HN) as [Hidx Hr].
      split; [|exact Hr]. rewrite Hidx. unfold getCycleSeed. lia.
    + unfold getCycleSeed, getDayInCycle.
      assert (Z.rem (daysSinceEpoch date) N = 0%Z) as -> by (apply Z.rem_divide; [lia|exact Hdiv]).
      apply Z.mod_divide in Hdiv; lia.
  - intros [Hd Hdiv].
    pose proof (getDayInCycle_before_epoch date N Hd HN Hdiv) as Hr.
    split; [|exact Hr].
    assert (daysSinceEpoch date mod N ≠ 0)%Z as Hm0.
    { intros H0. apply Hdiv, Z.mod_divide; [lia | exact H0]. }
    pose proof (Z.quot_rem' (daysSinceEpoch date) N) as Hqr.
    unfold getCycleSeed, getDayInCycle in *.
    set (q := (daysSinceEpoch date / N)%Z) in *.
    set (m := (daysSinceEpoch date mod N)%Z) in *.
    set (t := (daysSinceEpoch date ÷ N)%Z) in *.
    set (r := Z.rem (daysSinceEpoch date) N) in *.
    assert (t - q = 1)%Z by nia. nia.
Qed.

Lemma daysSinceEpoch_next (date date' : Date) :
  getTime date' = (getTime date + 86400000)%Z →
  daysSinceEpoch date' = (daysSinceEpoch date + 1)%Z.
Proof.
  intros Ht. unfold daysSinceEpoch. rewrite Ht.
  change 86400000%Z with (1 * (1000 * 60 * 60 * 24))%Z at 1.
  now rewrite Z.div_add.
Qed.

(** X7: From the epoch on, the day index of the next day is the next index
    of the same cycle, and after the last index [N - 1] it is index 0 of
    the next cycle. *)
Theorem next_day_index (date date' : Date) (N : Z) :
  (0 < N)%Z → (0 ≤ daysSinceEpoch date)%Z →
  getTime date' = (getTime date + 86400000)%Z →
  ((getDayInCycle date N < N - 1)%Z →
   getCycleSeed date' N = getCycleSeed date N
   ∧ getDayInCycle date' N = (getDayInCycle date N + 1)%Z)
  ∧ (getDayInCycle date N = (N - 1)%Z →
     getCycleSeed date' N = (getCycleSeed date N + 1)%Z
     ∧ getDayInCycle date' N = 0%Z).
Proof.
  intros HN Hd Ht. apply daysSinceEpoch_next in Ht.
  destruct (getDayInCycle_from_epoch date N Hd HN) as [Hidx Hr].
  destruct (getDayInCycle_from_epoch date' N ltac:(lia) HN) as [Hidx' _].
  pose proof (Z.div_mod (daysSinceEpoch date) N ltac:(lia)) as Hdm.
  rewrite Hidx in *. rewrite Hidx'. unfold getCycleSeed. rewrite Ht.
  split; intros Hcase; split.
  - symmetry. apply Z.div_unique_pos with (r := (daysSinceEpoch date mod N + 1)%Z); lia.
  - symmetry. apply Z.mod_unique_pos with (q := (daysSinceEpoch date / N)%Z); lia.
  - symmetry. apply Z.div_unique_pos with (r := 0%Z); lia.
  - symmetry. apply Z.mod_unique_pos with (q := (daysSinceEpoch date / N + 1)%Z); lia.
Qed.

(** ** What selectByDate returns and what it leaves behind *)

Lemma selection_member_from_epoch (l : list (value Item)) (date : Date) :
  l ≠ [] → (0 ≤ daysSinceEpoch date)%Z → selection l date ∈ l.
Proof.
  intros Hl Hd.
  assert (0 < Z.of_nat (length l))%Z as HN by (destruct l; [contradiction | cbn [length]; lia]).
  assert (0 ≤ getCycleSeed date (Z.of_nat (length l)))%Z as Hs
    by (unfold getCycleSeed; apply Z.div_pos; lia).
  destruct (getDayInCycle_from_epoch date _ Hd HN) as [_ Hr].
  rewrite selection_shuffle by (trivial; lia).
  rewrite <- (Z2Nat.id (getDayInCycle date (Z.of_nat (length l)))) by lia.
  rewrite array_get_index. cbn [elems].
  destruct (lookup_lt_is_Some_2 (spec_shuffle l (getCycleSeed date (Z.of_nat (length l))))
              (Z.to_nat (getDayInCycle date (Z.of_nat (length l))))) as [v Hv].
  { rewrite spec_shuffle_length. lia. }
  rewrite Hv. cbn [default].
  rewrite <- (spec_shuffle_Permutation l (getCycleSeed date (Z.of_nat (length l)))).
  eapply list_elem_of_lookup_2, Hv.
Qed.

Lemma selection_stored (l : list (value Item)) (date : Date) :
  l ≠ [] → selection l date = Undefined ∨ selection l date ∈ l.
Proof.
  intros Hl. unfold selection. destruct l as [|v l]; [contradiction|].
  match goal with |- array_get ?s ?k = _ ∨ _ =>
    destruct (array_get_stored s k) as [Hu|Hst]; [now left|] end.
  apply shuffle_array_stored in Hst as [Hu|[Hin|[k Hk]]]; [now left | now right |].
  cbn [props] in Hk. rewrite lookup_empty in Hk. discriminate.
Qed.

(** X9: On every date from the epoch on, [selectByDate] on a non-empty array
    returns one of its elements. *)
Theorem selectByDate_member_from_epoch (h : heap) (array : loc) (a : JSArray Item) (date : Date) :
  h !! array = Some a → elems a ≠ [] → (0 ≤ daysSinceEpoch date)%Z →
  ∃ (r : value Item) (h' : heap),
    selectByDate array date h = Some (r, h') ∧ r ∈ elems a.
Proof.
  intros Ha Hl Hd. rewrite (selectByDate_eq h array a date Ha).
  eexists _, _. split; [reflexivity|]. now apply selection_member_from_epoch.
Qed.

(** X10: On every date, [selectByDate] returns [null] for an empty array and,
    for a non-empty one, an element of the array or [undefined]: never a
    value from elsewhere. *)
Theorem selectByDate_no_foreign_value (h : heap) (array : loc) (a : JSArray Item) (date : Date) :
  h !! array = Some a →
  ∃ (r : value Item) (h' : heap),
    selectByDate array date h = Some (r, h')
    ∧ ((elems a = [] ∧ r = Null) ∨ (elems a ≠ [] ∧ (r = Undefined ∨ r ∈ elems a))).
Proof.
  intros Ha. rewrite (selectByDate_eq h array a date Ha).
  eexists _, _. split; [reflexivity|].
  destruct (elems a) as [|v l] eqn:El; [left; now split|].
  right. split; [discriminate|]. now apply selection_stored.
Qed.

(** X11: An array with a single element: [selectByDate] returns that element
    on every date, before the epoch too. *)
Theorem selectByDate_single (h : heap) (array : loc) (a : JSArray Item) (date : Date)
    (v : value Item) :
  h !! array = Some a → elems a = [v] →
  ∃ h' : heap, selectByDate array date h = Some (v, h').
Proof.
  intros Ha Hl. rewrite (selectByDate_eq h array a date Ha).
  eexists. f_equal. f_equal. rewrite Hl. unfold selection, getDayInCycle.
  cbn [length Nat.sub shuffle_array].
  change (Z.of_nat 1) with 1%Z. now rewrite Z.rem_1_r.
Qed.

(** X12: [selectByDate] keeps every object of the store as it was and allocates
    at most one new array; for an empty array it leaves the store
    untouched. *)
Theorem selectByDate_frame (h : heap) (array : loc) (a : JSArray Item) (date : Date) :
  h !! array = Some a →
  ∃ (r : value Item) (h' : heap),
    selectByDate array date h = Some (r, h')
    ∧ h ⊆ h' ∧ size h' ≤ S (size h) ∧ (elems a = [] → h' = h).
Proof.
  intros Ha. rewrite (selectByDate_eq h array a date Ha).
  eexists _, _. split; [reflexivity|].
  destruct (decide (length (elems a) = 0)) as [Hn|Hn].
  - split; [reflexivity|]. split; [lia | trivial].
  - split; [apply insert_subseteq, fresh_unallocated|].
    split; [now rewrite map_size_insert_None by apply fresh_unallocated|].
    intros Hl. rewrite Hl in Hn. contradiction.
Qed.

(** X13: The days of a cycle with seed [s >= 0], in increasing order, select
    every element of the array exactly once: the selections are a
    permutation of the array. *)
Theorem each_element_once_per_cycle
    (h : heap) (array : loc) (a : JSArray Item) (s : Z) (dates : list Date) :
  h !! array = Some a → (0 ≤ s)%Z →
  daysSinceEpoch <$> dates
  = (λ k : nat, (s * Z.of_nat (length (elems a)) + Z.of_nat k)%Z)
      <$> seq 0 (length (elems a)) →
  ∃ rs : list (value Item),
    (λ date, fst <$> selectByDate array date h) <$> dates = Some <$> rs
    ∧ rs ≡ₚ elems a.
Proof.
  intros Ha Hs Hdays.
  destruct (cycle_selections_from_epoch (elems a) s dates Hs Hdays) as [Hsel Hperm].
  exists (selection (elems a) <$> dates). split.
  - rewrite <- list_fmap_compose. apply list_fmap_ext. intros _ date _.
    cbn. apply (selectByDate_selection h array a date Ha).
  - now rewrite Hsel.
Qed.

(** X14: From the epoch on, the selections repeat after 233280 cycles: a date
    [233280 * N] days later gives the same result. *)
Theorem selectByDate_schedule_period
    (h : heap) (array : loc) (a : JSArray Item) (date1 date2 : Date) :
  h !! array = Some a → (0 ≤ daysSinceEpoch date1)%Z →
  daysSinceEpoch date2
  = (daysSinceEpoch date1 + 233280 * Z.of_nat (length (elems a)))%Z →
  selectByDate array date2 h = selectByDate array date1 h.
Proof.
  intros Ha Hd H2. rewrite !(selectByDate_eq h array a _ Ha).
  destruct (elems a) as [|v l] eqn:El; [reflexivity|].
  set (N := Z.of_nat (length (v :: l))) in *.
  assert (0 < N)%Z as HN by (unfold N; cbn [length]; lia).
  assert (getCycleSeed date2 N = getCycleSeed date1 N + 233280)%Z as Hseed.
  { unfold getCycleSeed. rewrite H2. apply Z.div_add. lia. }
  assert (getDayInCycle date2 N = getDayInCycle date1 N) as Hday.
  { unfold getDayInCycle. rewrite H2, !Z.rem_mod_nonneg by nia.
    apply Z_mod_plus_full. }
  assert (0 ≤ getCycleSeed date1 N)%Z as Hs by (unfold getCycleSeed; apply Z.div_pos; lia).
  unfold selection. fold N. rewrite Hseed, Hday.
  rewrite !shuffle_array_period by lia.
  destruct (decide (length (v :: l) = 0)); reflexivity.
Qed.

Lemma selection_before_epoch (l : list (value Item)) (date : Date) :
  l ≠ [] → (daysSinceEpoch date < 0)%Z →
  ¬ (Z.of_nat (length l) | daysSinceEpoch date)%Z →
  (-5 ≤ getCycleSeed date (Z.of_nat (length l)))%Z →
  selection l date = Undefined.
Proof.
  intros Hl Hd Hdiv Hs.
  assert (0 < Z.of_nat (length l))%Z as HN by (destruct l; [contradiction | cbn [length]; lia]).
  pose proof (getDayInCycle_before_epoch date _ Hd HN Hdiv) as Hday.
  rewrite selection_shuffle by trivial.
  rewrite array_get_negative by lia. cbn [props]. now rewrite lookup_empty.
Qed.

End SelectionProperties.

(** ** The page script *)

Lemma onPhotoList_eq (h : gmap loc (JSArray Photo)) (photos : loc) (a : JSArray Photo)
    (date : Date) (page : Page) :
  h !! photos = Some a →
  ∃ h' : gmap loc (JSArray Photo),
    onPhotoList photos date h page
    = Some (match selection (elems a) date with
            | Obj photo =>
                match download_url photo with
                | Some (String c s) => insertImageIntoDocument (String c s) page
                | _ => console_error "No photo selected or download URL missing." page
                end
            | _ => console_error "No photo selected or download URL missing." page
            end, h')
    ∧ (elems a = [] → h' = h).
Proof.
  intros Ha. unfold onPhotoList.
  rewrite (selectByDate_eq h photos a date Ha). cbn [mbind option_bind].
  eexists. split.
  - destruct (selection (elems a) date) as [| |photo]; try reflexivity.
    destruct (download_url photo) as [[|c s]|]; reflexivity.
  - intros Hl. now rewrite Hl.
Qed.

(** X15: With an empty photo list the script writes its message with
    [console.error], once, and leaves the document body and the store as
    they were. *)
Theorem onPhotoList_empty (h : gmap loc (JSArray Photo)) (photos : loc) (a : JSArray Photo)
    (date : Date) (page : Page) :
  h !! photos = Some a → elems a = [] →
  onPhotoList photos date h page
  = Some (MkPage (innerHTML page)
                 (errors page ++ ["No photo selected or download URL missing."]), h).
Proof.
  intros Ha Hl. destruct (onPhotoList_eq h photos a date page Ha) as (h' & Heq & Hh).
  rewrite Heq, (Hh Hl), Hl. reflexivity.
Qed.

(** X16: On every date and for every photo list, a run of the script does
    exactly one of two things: it replaces the document body by the image
    markup for the non-empty [download_url] of a photo of the list and
    writes no message, or it writes its one message and leaves the body
    as it was. *)
Theorem onPhotoList_outcome (h : gmap loc (JSArray Photo)) (photos : loc) (a : JSArray Photo)
    (date : Date) (page : Page) :
  h !! photos = Some a →
  ∃ (page' : Page) (h' : gmap loc (JSArray Photo)),
    onPhotoList photos date h page = Some (page', h')
    ∧ ((∃ (photo : Photo) (u : string),
          Obj photo ∈ elems a ∧ download_url photo = Some u ∧ u ≠ EmptyString
          ∧ page' = MkPage (img_markup u) (errors page))
       ∨ page' = MkPage (innerHTML page)
                        (errors page ++ ["No photo selected or download URL missing."])).
Proof.
  intros Ha. destruct (onPhotoList_eq h photos a date page Ha) as (h' & Heq & _).
  eexists _, h'. split; [exact Heq|].
  destruct (elems a) as [|v l] eqn:El; [now right|].
  destruct (selection_stored (v :: l) date ltac:(discriminate)) as [Hu|Hin].
  { rewrite Hu. now right. }
  destruct (selection (v :: l) date) as [| |photo]; [now right..|].
  destruct (download_url photo) as [[|c u]|] eqn:Hurl; [now right| |now right].
  left. exists photo, (String c u). repeat split; [exact Hin | exact Hurl | discriminate].
Qed.

(** X17: On every date from the epoch on, with a non-empty list whose entries
    all are photos with a non-empty [download_url], the script shows the
    image of one of them and writes no message. *)
Theorem onPhotoList_shows_image (h : gmap loc (JSArray Photo)) (photos : loc)
    (a : JSArray Photo) (date : Date) (page : Page) :
  h !! photos = Some a → elems a ≠ [] → (0 ≤ daysSinceEpoch date)%Z →
  (∀ v : value Photo, v ∈ elems a →
     ∃ (photo : Photo) (c : Ascii.ascii) (u : string),
       v = Obj photo ∧ download_url photo = Some (String c u)) →
  ∃ (photo : Photo) (u : string) (h' : gmap loc (JSArray Photo)),
    Obj photo ∈ elems a ∧ download_url photo = Some u
    ∧ onPhotoList photos date h page = Some (MkPage (img_markup u) (errors page), h').
Proof.
  intros Ha Hl Hd Hall.
  destruct (onPhotoList_eq h photos a date page Ha) as (h' & Heq & _).
  pose proof (selection_member_from_epoch (elems a) date Hl Hd) as Hin.
  destruct (Hall _ Hin) as (photo & c & u & Hsel & Hurl).
  exists photo, (String c u), h'. rewrite Hsel in Hin.
  split; [exact Hin|]. split; [exact Hurl|].
  rewrite Heq, Hsel, Hurl. reflexivity.
Qed.

(** X18: On a date before the epoch whose day count is not a multiple of the
    length [N] of the list and whose cycle seed is at least -5, the
    script shows no image, whatever the list holds: it writes its
    message. *)
Theorem onPhotoList_before_epoch (h : gmap loc (JSArray Photo)) (photos : loc)
    (a : JSArray Photo) (date : Date) (page : Page) :
  h !! photos = Some a → elems a ≠ [] →
  (daysSinceEpoch date < 0)%Z →
  ¬ (Z.of_nat (length (elems a)) | daysSinceEpoch date)%Z →
  (-5 ≤ getCycleSeed date (Z.of_nat (length (elems a))))%Z →
  ∃ h' : gmap loc (JSArray Photo),
    onPhotoList photos date h page
    = Some (MkPage (innerHTML page)
                   (errors page ++ ["No photo selected or download URL missing."]), h').
Proof.
  intros Ha Hl Hd Hdiv Hs.
  destruct (onPhotoList_eq h photos a date page Ha) as (h' & Heq & _).
  exists h'. rewrite Heq, (selection_before_epoch (elems a) date Hl Hd Hdiv Hs).
  reflexivity.
Qed.

(** ** The theorems at concrete collections and dates

    Items are strings; the collections are [["A"]], [["A", "B"]] and
    [["A", "B", "C"]]. *)

(** C10, as stated, fails for ["A", "B"] on the day -11: the day count is
    negative and odd, the cycle seed is -6 and the day index -1; the
    shuffle with seed -6 has stored "B" under the key -1, and
    [selectByDate] returns "B", an element of the collection, not
    [undefined]. *)
Lemma selectByDate_before_epoch_returns_element :
  (daysSinceEpoch (day (-11)) < 0)%Z
  ∧ ¬ (2 | daysSinceEpoch (day (-11)))%Z
  ∧ getCycleSeed (day (-11)) 2 = (-6)%Z
  ∧ getDayInCycle (day (-11)) 2 = (-1)%Z
  ∧ fst <$> selectByDate 1%positive (day (-11)) (store1 ["A"; "B"]%string)
    = Some (Obj "B"%string)
  ∧ Obj "B"%string ∈ (Obj <$> ["A"; "B"]%string)
  ∧ fst <$> selectByDate 1%positive (day (-11)) (store1 ["A"; "B"]%string)
    ≠ Some Undefined.
Proof.
  split; [now vm_compute|].
  split; [intros [k Hk]; change (daysSinceEpoch (day (-11))) with (-11)%Z in Hk; lia|].
  split; [reflexivity|]. split; [reflexivity|].
  assert (fst <$> selectByDate 1%positive (day (-11)) (store1 ["A"; "B"]%string)
          = Some (Obj "B"%string)) as Hr by now vm_compute.
  split; [exact Hr|].
  split; [apply list_elem_of_further, list_elem_of_here|].
  rewrite Hr. discriminate.
Qed.

(** Two calls for ["A", "B", "C"] on day 10. *)
Lemma selectByDate_deterministic_witness :
  ∃ (r : value string) (h1 h2 : gmap loc (JSArray string)),
    selectByDate 1%positive (day 10) (store1 ["A"; "B"; "C"]%string) = Some (r, h1)
    ∧ selectByDate 1%positive (day 10) h1 = Some (r, h2)
    ∧ r = selection (Obj <$> ["A"; "B"; "C"]%string) (day 10).
Proof.
  refine (selectByDate_deterministic (store1 ["A"; "B"; "C"]%string) 1%positive
            (MkArray (Obj <$> ["A"; "B"; "C"]%string) ∅) (day 10) _).
  reflexivity.
Defined.

(** The empty collection on day 10. *)
Lemma selectByDate_empty_witness :
  selectByDate 1%positive (day 10) (store1 ([] : list string))
  = Some (Null, store1 ([] : list string)).
Proof.
  refine (selectByDate_empty (store1 []) 1%positive (MkArray [] ∅) (day 10) _ _);
    reflexivity.
Defined.

(** ["A", "B", "C"] at noon of day 10: the shuffle with seed 3 is
    ["B", "C", "A"] and the selection is "C". *)
Lemma selectByDate_day_ten_witness :
  getCycleSeed (MkDate 907200000) 3 = 3%Z ∧ getDayInCycle (MkDate 907200000) 3 = 1%Z
  ∧ ∃ (shuffled : loc) (h' : gmap loc (JSArray string)) (s : JSArray string),
      seededShuffle 1%positive 3 (store1 ["A"; "B"; "C"]%string) = Some (shuffled, h')
      ∧ h' !! shuffled = Some s
      ∧ elems s = [Obj "B"; Obj "C"; Obj "A"]%string
      ∧ selectByDate 1%positive (MkDate 907200000) (store1 ["A"; "B"; "C"]%string)
        = Some (array_get s 1, h')
      ∧ array_get s 1 = Obj "C"%string.
Proof.
  refine (selectByDate_day_ten (store1 ["A"; "B"; "C"]%string) 1%positive
            (MkArray (Obj <$> ["A"; "B"; "C"]%string) ∅) (MkDate 907200000)
            (Obj "A"%string) (Obj "B"%string) (Obj "C"%string) _ _ _);
    reflexivity.
Defined.

(** A collection of one item, with the seed -6. *)
Lemma seededShuffle_short_witness :
  ∃ (arr : loc) (h' : gmap loc (JSArray string)) (s : JSArray string),
    seededShuffle 1%positive (-6) (store1 ["A"%string]) = Some (arr, h')
    ∧ arr ≠ 1%positive ∧ h' !! arr = Some s ∧ elems s = [Obj "A"%string].
Proof.
  refine (seededShuffle_short (store1 ["A"%string]) 1%positive
           (MkArray [Obj "A"%string] ∅) (-6) _ _).
  - reflexivity.
  - simpl. lia.
Defined.

(** ["A", "B"] with the seed -6, for which the loop writes under a negative
    key: the write goes to the copy. *)
Lemma seededShuffle_input_unchanged_witness :
  ∃ (arr : loc) (h' : gmap loc (JSArray string)),
    seededShuffle 1%positive (-6) (store1 ["A"; "B"]%string) = Some (arr, h')
    ∧ h' !! 1%positive = Some (MkArray [Obj "A"; Obj "B"]%string ∅)
    ∧ arr ≠ 1%positive
    ∧ store1 ["A"; "B"]%string !! arr = None
    ∧ is_Some (h' !! arr)
    ∧ ∀ l : loc, l ≠ arr → h' !! l = store1 ["A"; "B"]%string !! l.
Proof.
  refine (seededShuffle_input_unchanged (store1 ["A"; "B"]%string) 1%positive
            (MkArray [Obj "A"; Obj "B"]%string ∅) (-6) _).
  reflexivity.
Defined.

(** ["A", "B", "C"] on the day -1: the cycle seed is -1 and the result is
    [undefined]. *)
Lemma selectByDate_before_epoch_witness :
  (- 3 < getDayInCycle (day (-1)) 3 < 0)%Z
  ∧ ∃ (r : value string) (h' : gmap loc (JSArray string)),
      selectByDate 1%positive (day (-1)) (store1 ["A"; "B"; "C"]%string) = Some (r, h')
      ∧ (r = Undefined ∨ r ∈ [Obj "A"; Obj "B"; Obj "C"]%string)
      ∧ ((-5 ≤ getCycleSeed (day (-1)) 3)%Z → r = Undefined).
Proof.
  refine (selectByDate_before_epoch (store1 ["A"; "B"; "C"]%string) 1%positive
            (MkArray [Obj "A"; Obj "B"; Obj "C"]%string ∅) (day (-1)) _ _ _ _).
  - reflexivity.
  - discriminate.
  - vm_compute. reflexivity.
  - intros [k Hk]. change (daysSinceEpoch (day (-1))) with (-1)%Z in Hk.
    simpl in Hk. lia.
Defined.

(** ** Further instances

    The theorems on the shuffle, the cycle indexer, [selectByDate] and the
    page script at concrete inputs. *)


(** ["A", "B"] with the seed -6: the array returned has two elements. *)
Lemma seededShuffle_keeps_length_witness :
  ∃ (arr : loc) (h' : gmap loc (JSArray string)) (s : JSArray string),
    seededShuffle 1%positive (-6) (store1 ["A"; "B"]%string) = Some (arr, h')
    ∧ h' !! arr = Some s ∧ length (elems s) = 2.
Proof.
  refine (seededShuffle_keeps_length (store1 ["A"; "B"]%string) 1%positive
            (MkArray [Obj "A"; Obj "B"]%string ∅) (-6) _).
  reflexivity.
Defined.



(** The first and the last millisecond of 1969-12-31. *)
Lemma selectByDate_same_day_witness :
  selectByDate 1%positive (MkDate (-86400000)) (store1 ["A"; "B"; "C"]%string)
  = selectByDate 1%positive (MkDate (-1)) (store1 ["A"; "B"; "C"]%string).
Proof.
  refine (selectByDate_same_day (store1 ["A"; "B"; "C"]%string) 1%positive (-1)
            (MkDate (-86400000)) (MkDate (-1)) _ _); simpl; lia.
Defined.

(** The day -1 and [N = 3]. *)
Lemma seed_index_decomposition_witness :
  ((0 ≤ daysSinceEpoch (day (-1)))%Z ∨ (3 | daysSinceEpoch (day (-1)))%Z →
   (3 * getCycleSeed (day (-1)) 3 + getDayInCycle (day (-1)) 3 = daysSinceEpoch (day (-1))
    ∧ 0 ≤ getDayInCycle (day (-1)) 3 < 3)%Z)
  ∧ ((daysSinceEpoch (day (-1)) < 0)%Z ∧ ¬ (3 | daysSinceEpoch (day (-1)))%Z →
     (3 * getCycleSeed (day (-1)) 3 + getDayInCycle (day (-1)) 3
      = daysSinceEpoch (day (-1)) - 3
      ∧ - 3 < getDayInCycle (day (-1)) 3 < 0)%Z).
Proof.
  refine (seed_index_decomposition (day (-1)) 3 _). lia.
Defined.

(** The days 11 and 12 with [N = 3]: index 2 of cycle 3, then index 0 of
    cycle 4. *)
Lemma next_day_index_witness :
  ((getDayInCycle (day 11) 3 < 3 - 1)%Z →
   getCycleSeed (day 12) 3 = getCycleSeed (day 11) 3
   ∧ getDayInCycle (day 12) 3 = (getDayInCycle (day 11) 3 + 1)%Z)
  ∧ (getDayInCycle (day 11) 3 = (3 - 1)%Z →
     getCycleSeed (day 12) 3 = (getCycleSeed (day 11) 3 + 1)%Z
     ∧ getDayInCycle (day 12) 3 = 0%Z).
Proof.
  refine (next_day_index (day 11) (day 12) 3 _ _ _).
  - lia.
  - vm_compute. discriminate.
  - reflexivity.
Defined.

(** ["A", "B", "C"] on the day 10. *)
Lemma selectByDate_member_from_epoch_witness :
  ∃ (r : value string) (h' : gmap loc (JSArray string)),
    selectByDate 1%positive (day 10) (store1 ["A"; "B"; "C"]%string) = Some (r, h')
    ∧ r ∈ [Obj "A"; Obj "B"; Obj "C"]%string.
Proof.
  refine (selectByDate_member_from_epoch (store1 ["A"; "B"; "C"]%string) 1%positive
            (MkArray [Obj "A"; Obj "B"; Obj "C"]%string ∅) (day 10) _ _ _).
  - reflexivity.
  - discriminate.
  - vm_compute. discriminate.
Defined.

(** ["A", "B"] on the day -11. *)
Lemma selectByDate_no_foreign_value_witness :
  ∃ (r : value string) (h' : gmap loc (JSArray string)),
    selectByDate 1%positive (day (-11)) (store1 ["A"; "B"]%string) = Some (r, h')
    ∧ (([Obj "A"; Obj "B"]%string = [] ∧ r = Null)
       ∨ ([Obj "A"; Obj "B"]%string ≠ []
          ∧ (r = Undefined ∨ r ∈ [Obj "A"; Obj "B"]%string))).
Proof.
  refine (selectByDate_no_foreign_value (store1 ["A"; "B"]%string) 1%positive
            (MkArray [Obj "A"; Obj "B"]%string ∅) (day (-11)) _).
  reflexivity.
Defined.

(** ["A"] on the day -1. *)
Lemma selectByDate_single_witness :
  ∃ h' : gmap loc (JSArray string),
    selectByDate 1%positive (day (-1)) (store1 ["A"%string]) = Some (Obj "A"%string, h').
Proof.
  refine (selectByDate_single (store1 ["A"%string]) 1%positive
            (MkArray [Obj "A"%string] ∅) (day (-1)) (Obj "A"%string) _ _);
    reflexivity.
Defined.

(** ["A", "B", "C"] on the day 10. *)
Lemma selectByDate_frame_witness :
  ∃ (r : value string) (h' : gmap loc (JSArray string)),
    selectByDate 1%positive (day 10) (store1 ["A"; "B"; "C"]%string) = Some (r, h')
    ∧ store1 ["A"; "B"; "C"]%string ⊆ h'
    ∧ size h' ≤ S (size (store1 ["A"; "B"; "C"]%string))
    ∧ ([Obj "A"; Obj "B"; Obj "C"]%string = [] → h' = store1 ["A"; "B"; "C"]%string).
Proof.
  refine (selectByDate_frame (store1 ["A"; "B"; "C"]%string) 1%positive
            (MkArray [Obj "A"; Obj "B"; Obj "C"]%string ∅) (day 10) _).
  reflexivity.
Defined.

(** ["A", "B", "C"] over the cycle of seed 3, the days 9, 10 and 11. *)
Lemma each_element_once_per_cycle_witness :
  ∃ rs : list (value string),
    (λ date, fst <$> selectByDate 1%positive date (store1 ["A"; "B"; "C"]%string))
      <$> [day 9; day 10; day 11]
    = Some <$> rs
    ∧ rs ≡ₚ [Obj "A"; Obj "B"; Obj "C"]%string.
Proof.
  refine (each_element_once_per_cycle (store1 ["A"; "B"; "C"]%string) 1%positive
            (MkArray [Obj "A"; Obj "B"; Obj "C"]%string ∅) 3 [day 9; day 10; day 11] _ _ _).
  - reflexivity.
  - lia.
  - reflexivity.
Defined.

(** ["A", "B", "C"] on the day 10 and 699840 days later. *)
Lemma selectByDate_schedule_period_witness :
  selectByDate 1%positive (day 699850) (store1 ["A"; "B"; "C"]%string)
  = selectByDate 1%positive (day 10) (store1 ["A"; "B"; "C"]%string).
Proof.
  refine (selectByDate_schedule_period (store1 ["A"; "B"; "C"]%string) 1%positive
            (MkArray [Obj "A"; Obj "B"; Obj "C"]%string ∅) (day 10) (day 699850) _ _ _).
  - reflexivity.
  - vm_compute. discriminate.
  - reflexivity.
Defined.

(** An empty photo list on the day 10. *)
Lemma onPhotoList_empty_witness :
  onPhotoList 1%positive (day 10) (store1 []) (MkPage "Loading" [])
  = Some (MkPage "Loading" ["No photo selected or download URL missing."], store1 []).
Proof.
  refine (onPhotoList_empty (store1 []) 1%positive (MkArray [] ∅) (day 10)
            (MkPage "Loading" []) _ _); reflexivity.
Defined.

(** The three photos on the day 10. *)
Lemma onPhotoList_outcome_witness :
  ∃ (page' : Page) (h' : gmap loc (JSArray Photo)),
    onPhotoList 1%positive (day 10) (store1 three_photos) (MkPage "Loading" [])
    = Some (page', h')
    ∧ ((∃ (photo : Photo) (u : string),
          Obj photo ∈ Obj <$> three_photos ∧ download_url photo = Some u
          ∧ u ≠ EmptyString ∧ page' = MkPage (img_markup u) [])
       ∨ page' = MkPage "Loading" ([] ++ ["No photo selected or download URL missing."])).
Proof.
  refine (onPhotoList_outcome (store1 three_photos) 1%positive
            (MkArray (Obj <$> three_photos) ∅) (day 10) (MkPage "Loading" []) _).
  reflexivity.
Defined.

(** The three photos on the day 10: the body shows one of them. *)
Lemma onPhotoList_shows_image_witness :
  ∃ (photo : Photo) (u : string) (h' : gmap loc (JSArray Photo)),
    Obj photo ∈ Obj <$> three_photos ∧ download_url photo = Some u
    ∧ onPhotoList 1%positive (day 10) (store1 three_photos) (MkPage "Loading" [])
      = Some (MkPage (img_markup u) [], h').
Proof.
  refine (onPhotoList_shows_image (store1 three_photos) 1%positive
            (MkArray (Obj <$> three_photos) ∅) (day 10) (MkPage "Loading" []) _ _ _ _).
  - reflexivity.
  - discriminate.
  - vm_compute. discriminate.
  - intros v Hv. cbn in Hv.
    apply elem_of_cons in Hv as [->|Hv]; [eexists _, _, _; split; reflexivity|].
    apply elem_of_cons in Hv as [->|Hv]; [eexists _, _, _; split; reflexivity|].
    apply list_elem_of_singleton in Hv as ->. eexists _, _, _; split; reflexivity.
Defined.

(** The three photos on the day -1: no image. *)
Lemma onPhotoList_before_epoch_witness :
  ∃ h' : gmap loc (JSArray Photo),
    onPhotoList 1%positive (day (-1)) (store1 three_photos) (MkPage "Loading" [])
    = Some (MkPage "Loading" ([] ++ ["No photo selected or download URL missing."]), h').
Proof.
  refine (onPhotoList_before_epoch (store1 three_photos) 1%positive
            (MkArray (Obj <$> three_photos) ∅) (day (-1)) (MkPage "Loading" []) _ _ _ _ _).
  - reflexivity.
  - discriminate.
  - vm_compute. reflexivity.
  - intros [k Hk]. change (daysSinceEpoch (day (-1))) with (-1)%Z in Hk.
    simpl in Hk. lia.
  - vm_compute. discriminate.
Defined.

